(** * Scoring engine of the necrotizing-fasciitis risk app (fascitis-app/app.py)

    Shallow embedding of the pure core of [app.py]: [clamp], [sigmoid],
    [normalize_demo], [calculate_demo], [calculate_lrinec], [keywords_factor],
    [combine_risk] and [risk_label].

    Modelling choices:
    - Python floats are modelled as exact rationals [Q]; rounding of IEEE
      arithmetic is not modelled.  Every operation except [math.exp] is
      rational, so all of the code except [sigmoid] computes in [Q].
    - [sigmoid] uses the real exponential, so it lives in [R]; its argument
      is the rational value injected with [Q2R].
    - Python [int] is [Z]; Python [str] is a list of Unicode code points. *)

From Stdlib Require Import QArith Qreals Reals Psatz ZArith String List Bool.
Import ListNotations.

Open Scope Q_scope.

(** ** Python comparison helpers *)

(** [a < b] on floats. *)
Definition Qltb (a b : Q) : bool := negb (Qle_bool b a).

(** Python's two-argument [max(a, b)]: keeps [a] unless [b > a]. *)
Definition py_max (a b : Q) : Q := if Qltb a b then b else a.

(** Python's two-argument [min(a, b)]: keeps [a] unless [b < a]. *)
Definition py_min (a b : Q) : Q := if Qltb b a then b else a.

(** Truth value of a float in a Python [if]: every value except [0.0]. *)
Definition py_float_truthy (x : Q) : bool := negb (Qeq_bool x 0).

(** ** Core functions of app.py *)

(** [def clamp(value, min_value=0.0, max_value=1.0):
        return max(min_value, min(value, max_value))] *)
Definition clamp (value min_value max_value : Q) : Q :=
  py_max min_value (py_min value max_value).

(** [def sigmoid(x): return 1 / (1 + exp(-x))] *)
Definition sigmoid (x : R) : R := (1 / (1 + exp (- x)))%R.

(** [def normalize_demo(value, max_value):
        if max_value <= 0: return 0
        return clamp(value / max_value)] *)
Definition normalize_demo (value max_value : Q) : Q :=
  if Qle_bool max_value 0 then 0 else clamp (value / max_value) 0 1.

(** The weighted sum [z] of [calculate_demo], before the sigmoid. *)
Definition demo_z (pcr wbc esr : Q) : Q :=
  let npcr := normalize_demo pcr 300 in
  let nwbc := normalize_demo wbc 40 in
  let nesr := normalize_demo esr 150 in
  npcr * 0.4 + nwbc * 0.35 + nesr * 0.25.

(** [def calculate_demo(pcr, wbc, esr): ... return sigmoid(3 * z - 1.5)] *)
Definition calculate_demo (pcr wbc esr : Q) : R :=
  sigmoid (Q2R (3 * demo_z pcr wbc esr - 1.5)).

(** [def calculate_lrinec(crp, wbc, hb, na, creat, glucose)]: the score is
    accumulated one lab after the other, as in the source, and the function
    returns the tuple [(score, level, prob)]. *)
Definition calculate_lrinec (crp wbc hb na creat glucose : Q) : Z * string * R :=
  let score := 0%Z in
  (* CRP *)
  let score := if Qle_bool 150 crp then (score + 4)%Z else score in
  (* Leucocitos *)
  let score :=
    if Qle_bool 15 wbc && Qle_bool wbc 25 then (score + 1)%Z
    else if Qltb 25 wbc then (score + 2)%Z
    else score in
  (* Hemoglobina *)
  let score :=
    if Qle_bool 11 hb && Qle_bool hb 13.5 then (score + 1)%Z
    else if Qltb hb 11 then (score + 2)%Z
    else score in
  (* Sodio *)
  let score := if Qltb na 135 then (score + 2)%Z else score in
  (* Creatinina *)
  let score := if Qltb 1.6 creat then (score + 2)%Z else score in
  (* Glucosa *)
  let score := if Qltb 180 glucose then (score + 1)%Z else score in
  (* Probabilidad suave usando sigmoide centrado en 6.5 *)
  let prob := sigmoid ((IZR score - 6.5) / 1.5)%R in
  let level :=
    if (8 <=? score)%Z then "Alto"%string
    else if (6 <=? score)%Z then "Intermedio"%string
    else "Bajo"%string in
  (score, level, prob).

Definition lrinec_score (r : Z * string * R) : Z := fst (fst r).
Definition lrinec_level (r : Z * string * R) : string := snd (fst r).
Definition lrinec_prob (r : Z * string * R) : R := snd r.

(** ** Text: Python [str] as a list of code points *)

Definition text := list Z.

(** Code points of an ASCII literal. *)
Fixpoint cps (s : string) : text :=
  match s with
  | EmptyString => []
  | String a s' => Z.of_nat (Ascii.nat_of_ascii a) :: cps s'
  end.

(** [str.lower] on one code point: Python's mapping on ASCII [A-Z] and on
    the Latin-1 capitals U+00C0..U+00DE (except U+00D7), which is [+32].
    Code points above U+00FF are left unchanged: Python's full Unicode case
    table is not modelled. *)
Definition py_lower_cp (c : Z) : Z :=
  if ((65 <=? c) && (c <=? 90))%Z then (c + 32)%Z
  else if ((192 <=? c) && (c <=? 222) && negb (c =? 215))%Z then (c + 32)%Z
  else c.

Definition py_lower (t : text) : text := map py_lower_cp t.

Fixpoint is_prefix (p s : text) : bool :=
  match p, s with
  | [], _ => true
  | _ :: _, [] => false
  | a :: p', b :: s' => Z.eqb a b && is_prefix p' s'
  end.

(** Python's [kw in t] on strings: [kw] occurs as a substring of [t]. *)
Fixpoint py_str_contains (t kw : text) : bool :=
  is_prefix kw t ||
  match t with
  | [] => false
  | _ :: t' => py_str_contains t' kw
  end.

(** U+00F3, LATIN SMALL LETTER O WITH ACUTE. *)
Definition o_acute : Z := 243.

(** U+00E1, LATIN SMALL LETTER A WITH ACUTE. *)
Definition a_acute : Z := 225.

(** The [keywords] list of [keywords_factor]. *)
Definition keywords : list text :=
  [ cps "dolor desproporcionado";
    cps "crepitaci" ++ [o_acute] ++ cps "n";
    cps "bullas";
    cps "necrosis";
    cps "progresi" ++ [o_acute] ++ cps "n r" ++ [a_acute] ++ cps "pida";
    cps "sepsis";
    cps "hipotensi" ++ [o_acute] ++ cps "n" ].

(** [hits = sum(1 for kw in keywords if kw in t)] *)
Definition keyword_hits (t : text) : Z :=
  fold_left (fun acc kw => if py_str_contains t kw then (acc + 1)%Z else acc)
            keywords 0%Z.

(** [def keywords_factor(text):
        t = text.lower(); hits = ...; return clamp(0.05 * hits, 0, 0.3)] *)
Definition keywords_factor (txt : text) : Q :=
  let t := py_lower txt in
  let hits := keyword_hits t in
  clamp (0.05 * inject_Z hits) 0 0.3.

(** ** Combination and labelling *)

(** [def combine_risk(base_prob, text_factor, ai_active):
        if ai_active and text_factor is not None:
            return clamp(0.7 * base_prob + 0.3 * text_factor)
        elif text_factor:
            return clamp(base_prob + text_factor)
        return base_prob]
    [None] makes both tests false. *)
Definition combine_risk (base_prob : Q) (text_factor : option Q) (ai_active : bool) : Q :=
  match text_factor with
  | Some tf =>
      if ai_active then clamp (0.7 * base_prob + 0.3 * tf) 0 1
      else if py_float_truthy tf then clamp (base_prob + tf) 0 1
      else base_prob
  | None => base_prob
  end.

(** [def risk_label(prob)] returns [(level, color_class, color_hex)]. *)
Definition risk_label (prob : Q) : string * string * string :=
  if Qle_bool 0.6 prob then ("Alto", "danger", "#dc3545")%string
  else if Qle_bool 0.3 prob then ("Intermedio", "warning", "#ffc107")%string
  else ("Bajo", "success", "#198754")%string.

(** ** Python floats at the external-service boundary

    [ai_text_factor] parses the service's reply with [float()], which also
    accepts "nan", "inf" and "-inf"; its value is then clamped.  Only there
    do non-finite floats reach the code, so only there are they modelled. *)

Inductive pyfloat : Type :=
| PFin (q : Q)
| PInf
| PNegInf
| PNaN.

(** IEEE [a < b]: false as soon as one side is NaN. *)
Definition pf_lt (a b : pyfloat) : bool :=
  match a, b with
  | PNaN, _ | _, PNaN => false
  | PFin x, PFin y => Qltb x y
  | PFin _, PInf => true
  | PFin _, PNegInf => false
  | PInf, _ => false
  | PNegInf, PNegInf => false
  | PNegInf, _ => true
  end.

(** [max(a, b)] and [min(a, b)] on floats, as Python evaluates them. *)
Definition pf_max (a b : pyfloat) : pyfloat := if pf_lt a b then b else a.
Definition pf_min (a b : pyfloat) : pyfloat := if pf_lt b a then b else a.

(** [clamp] at float arguments. *)
Definition clamp_f (value min_value max_value : pyfloat) : pyfloat :=
  pf_max min_value (pf_min value max_value).

(** Characters removed by [str.strip()] (Python's [str.isspace]). *)
Definition py_isspace (c : Z) : bool :=
  existsb (Z.eqb c)
    ([9; 10; 11; 12; 13; 28; 29; 30; 31; 32; 133; 160; 5760]
     ++ [8192; 8193; 8194; 8195; 8196; 8197; 8198; 8199; 8200; 8201; 8202]
     ++ [8232; 8233; 8239; 8287; 12288])%Z.

Fixpoint drop_space (t : text) : text :=
  match t with
  | c :: t' => if py_isspace c then drop_space t' else t
  | [] => []
  end.

(** [s.strip()] *)
Definition py_strip (t : text) : text := rev (drop_space (rev (drop_space t))).

(** [s.replace(",", ".")] *)
Definition py_replace_comma (t : text) : text :=
  map (fun c => if (c =? 44)%Z then 46%Z else c) t.

(** U+00FA, LATIN SMALL LETTER U WITH ACUTE. *)
Definition u_acute : Z := 250.

(** The fixed instruction prepended to the notes in [ai_text_factor]. *)
Definition ai_prompt_prefix : text :=
  cps "Devuelve SOLO un n" ++ [u_acute] ++ cps "mero entre 0 y 1 (m" ++ [a_acute]
  ++ cps "x 3 decimales) que represente "
  ++ cps "la probabilidad de fascitis necrotizante seg" ++ [u_acute]
  ++ cps "n el texto dado:" ++ [10%Z].

(** Truth value of [OPENAI_API_KEY] ([os.getenv]: absent or a string). *)
Definition py_env_truthy (v : option text) : bool :=
  match v with
  | Some (_ :: _) => true
  | _ => false
  end.

(** [ai_active = bool(OPENAI_API_KEY and OpenAI)] *)
Definition ai_active (api_key : option text) (openai_available : bool) : bool :=
  py_env_truthy api_key && openai_available.

(** [def ai_text_factor(text)].  [api prompt] is the [output_text] of
    [client.responses.create(...)] for that prompt, or [None] when the call
    raises; [py_float s] is [float(s)], or [None] on [ValueError].  Both raise
    only inside the [try], whose [except Exception] returns [None]. *)
Definition ai_text_factor (py_float : text -> option pyfloat)
    (api_key : option text) (openai_available : bool)
    (api : text -> option text) (txt : text) : option pyfloat :=
  if negb (ai_active api_key openai_available) then None
  else
    let prompt := ai_prompt_prefix ++ txt in
    match api prompt with
    | None => None
    | Some output_text =>
        let value := py_replace_comma (py_strip output_text) in
        match py_float value with
        | None => None
        | Some v => Some (clamp_f v (PFin 0) (PFin 1))
        end
    end.

(** ** The [index] view at real probabilities

    The base probability of both models is a real number ([sigmoid]), so
    [index] applies [clamp], [combine_risk] and [risk_label] to reals.  The
    same Python functions at real arguments: *)

Definition py_maxR (a b : R) : R := if Rlt_dec a b then b else a.
Definition py_minR (a b : R) : R := if Rlt_dec b a then b else a.

Definition clampR (value min_value max_value : R) : R :=
  py_maxR min_value (py_minR value max_value).

Definition combine_riskR (base_prob : R) (text_factor : option R) (ai_active : bool) : R :=
  match text_factor with
  | Some tf =>
      if ai_active then clampR (0.7 * base_prob + 0.3 * tf) 0 1
      else if Req_dec_T tf 0 then base_prob
      else clampR (base_prob + tf) 0 1
  | None => base_prob
  end%R.

Definition risk_labelR (prob : R) : string * string * string :=
  if Rle_dec 0.6 prob then ("Alto", "danger", "#dc3545")%string
  else if Rle_dec 0.3 prob then ("Intermedio", "warning", "#ffc107")%string
  else ("Bajo", "success", "#198754")%string.

(** [math.floor] on reals. *)
Definition py_floor (y : R) : Z := (up y - 1)%Z.

(** Round to the nearest integer, ties to even (Python 3 [round]). *)
Definition round_half_even (y : R) : Z :=
  let f := py_floor y in
  let d := (y - IZR f)%R in
  if Rlt_dec d 0.5 then f
  else if Rlt_dec 0.5 d then (f + 1)%Z
  else if Z.even f then f else (f + 1)%Z.

(** [round(x, 1)] *)
Definition py_round1 (x : R) : R := (IZR (round_half_even (x * 10)) / 10)%R.

(** A POST to [index]: [request.form.get("model", "demo")], the notes
    [request.form.get("notes", "")], and for a numeric field [k] the value of
    [float(request.form.get(k, ""))], [None] when [float] raises [ValueError]
    (missing, empty or non-numeric field).  Fields whose [float] is not
    finite ("nan", "inf") are not modelled.  [request.form.get] never raises
    [KeyError], so the view's [except KeyError] branch is unreachable. *)
Record post_form := {
  form_model : string;
  form_notes : text;
  form_float : string -> option Q
}.

(** The [result] dictionary rendered by [index] (without the [inputs] echo). *)
Record risk_result := {
  res_prob : R;
  res_percent : R;
  res_level : string;
  res_color_class : string;
  res_color_hex : string
}.

(** What the view returns: the rendered page with [result], [model],
    [lrinec_score], [lrinec_level] and [ai_active], or a redirect to [index]
    after a [flash] message. *)
Inductive response :=
| Render (result : option risk_result) (model : string)
         (lrinec_score : option Z) (lrinec_level : option string)
         (ai_active : bool)
| Redirect (flash : string).

Definition invalid_values_msg : string := "Valores inválidos o negativos.".

(** The first half of the [try] block of [index]: reading the lab fields,
    rejecting negatives ([raise ValueError]) and computing [base_prob]
    (and, for LRINEC, [lrinec_score] and [lrinec_level]).  [None] stands for
    the [ValueError]. *)
Definition clinical_step (f : post_form) : option (R * option (Z * string)) :=
  if String.eqb (form_model f) "demo" then
    match form_float f "pcr", form_float f "wbc", form_float f "esr" with
    | Some pcr, Some wbc, Some esr =>
        if Qltb (py_min (py_min pcr wbc) esr) 0 then None
        else Some (calculate_demo pcr wbc esr, None)
    | _, _, _ => None
    end
  else
    match form_float f "crp", form_float f "wbc", form_float f "hb",
          form_float f "na", form_float f "creat", form_float f "glucose" with
    | Some crp, Some wbc, Some hb, Some na, Some creat, Some glucose =>
        if Qltb (py_min (py_min (py_min (py_min (py_min crp wbc) hb) na) creat) glucose) 0
        then None
        else
          let r := calculate_lrinec crp wbc hb na creat glucose in
          Some (lrinec_prob r, Some (lrinec_score r, lrinec_level r))
    | _, _, _, _, _, _ => None
    end.

(** [index] on a POST.  [ai_factor notes] is the value [ai_text_factor]
    returns for the notes (by [ai_text_factor_finite], [None] or a finite
    float in [[0, 1]]); it is only used when [ai_active] holds. *)
Definition index_post (api_key : option text) (openai_available : bool)
    (ai_factor : text -> option Q) (f : post_form) : response :=
  match clinical_step f with
  | None => Redirect invalid_values_msg
  | Some (base_prob, lrinec) =>
      let active := ai_active api_key openai_available in
      let tfactor :=
        if active then ai_factor (form_notes f)
        else Some (keywords_factor (form_notes f)) in
      let final_prob := combine_riskR base_prob (option_map Q2R tfactor) active in
      let '(level, color_class, color_hex) := risk_labelR final_prob in
      let risk_percent := py_round1 (final_prob * 100)%R in
      Render (Some {| res_prob := final_prob; res_percent := risk_percent;
                      res_level := level; res_color_class := color_class;
                      res_color_hex := color_hex |})
             (form_model f) (option_map fst lrinec) (option_map snd lrinec) active
  end.

(** The lab fields [ks] of a form are all present, numeric and
    non-negative. *)
Definition fields_valid (f : post_form) (ks : list string) : Prop :=
  forall k, In k ks -> exists v, form_float f k = Some v /\ 0 <= v.

(** The lab fields [index] reads for the model named by the form. *)
Definition model_fields (f : post_form) : list string :=
  if String.eqb (form_model f) "demo" then ["pcr"; "wbc"; "esr"]%string
  else ["crp"; "wbc"; "hb"; "na"; "creat"; "glucose"]%string.

(** * Properties *)

(** ** Reflection of the Python comparisons *)

Lemma Qle_bool_spec (a b : Q) : reflect (a <= b) (Qle_bool a b).
Proof.
  destruct (Qle_bool a b) eqn:E; constructor.
  - now apply Qle_bool_iff.
  - intro H. apply Qle_bool_iff in H. congruence.
Qed.

Lemma Qltb_spec (a b : Q) : reflect (a < b) (Qltb a b).
Proof.
  unfold Qltb. destruct (Qle_bool_spec b a); constructor.
  - now apply Qle_not_lt.
  - now apply Qnot_le_lt.
Qed.

Lemma Qeq_bool_spec (a b : Q) : reflect (a == b) (Qeq_bool a b).
Proof.
  destruct (Qeq_bool a b) eqn:E; constructor.
  - now apply Qeq_bool_iff.
  - intro H. apply Qeq_bool_iff in H. congruence.
Qed.

(** Split every float comparison of the goal into its two cases. *)
Ltac qcases :=
  repeat (match goal with
          | H : context [Qle_bool ?a ?b] |- _ => destruct (Qle_bool_spec a b)
          | H : context [Qltb ?a ?b] |- _ => destruct (Qltb_spec a b)
          | H : context [Qeq_bool ?a ?b] |- _ => destruct (Qeq_bool_spec a b)
          | |- context [Qle_bool ?a ?b] => destruct (Qle_bool_spec a b)
          | |- context [Qltb ?a ?b] => destruct (Qltb_spec a b)
          | |- context [Qeq_bool ?a ?b] => destruct (Qeq_bool_spec a b)
          end; cbn beta iota delta [andb orb negb] in *).

(** Closed comparisons between rational literals, by evaluation. *)
Ltac qnum :=
  vm_compute; first [reflexivity | discriminate | split; qnum | intro; discriminate].

(** ** clamp *)

Lemma clamp_bounds (v lo hi : Q) : lo <= hi -> lo <= clamp v lo hi <= hi.
Proof. intros H. unfold clamp, py_max, py_min. qcases; simpl; lra. Qed.

Lemma clamp_lower (v lo hi : Q) : lo <= clamp v lo hi.
Proof. unfold clamp, py_max, py_min. qcases; simpl; lra. Qed.

Lemma clamp_inside (v lo hi : Q) : lo <= v -> v <= hi -> clamp v lo hi == v.
Proof. intros H1 H2. unfold clamp, py_max, py_min. qcases; simpl; lra. Qed.

Lemma clamp_mono (v w lo hi : Q) : v <= w -> clamp v lo hi <= clamp w lo hi.
Proof. intros H. unfold clamp, py_max, py_min. qcases; simpl; lra. Qed.

(** [clamp] only ever returns [lo], [hi] or its argument. *)
Lemma clamp_cases (v lo hi : Q) :
  clamp v lo hi = lo \/ clamp v lo hi = hi \/ clamp v lo hi = v.
Proof. unfold clamp, py_max, py_min. qcases; simpl; tauto. Qed.

(** ** normalize_demo *)

Lemma normalize_demo_range (v c : Q) : 0 <= normalize_demo v c <= 1.
Proof.
  unfold normalize_demo. qcases.
  - lra.
  - apply clamp_bounds. lra.
Qed.

Lemma normalize_demo_mono (v w c : Q) :
  v <= w -> normalize_demo v c <= normalize_demo w c.
Proof.
  intros H. unfold normalize_demo. qcases.
  - lra.
  - apply clamp_mono. unfold Qdiv. apply Qmult_le_compat_r; [exact H|].
    apply Qinv_le_0_compat. lra.
Qed.

Lemma clamp_compat (v w lo hi : Q) : v == w -> clamp v lo hi == clamp w lo hi.
Proof. intros H. unfold clamp, py_max, py_min. qcases; lra. Qed.

(** ** The LRINEC table

    Points of the LRINEC table, one function per lab, written in the order
    of the table ([WBC > 25] is tested first, so the two WBC rules are
    visibly exclusive; likewise for Hb). *)

Definition table_crp (crp : Q) : Z := if Qle_bool 150 crp then 4 else 0.
Definition table_wbc (wbc : Q) : Z :=
  if Qltb 25 wbc then 2 else if Qle_bool 15 wbc then 1 else 0.
Definition table_hb (hb : Q) : Z :=
  if Qltb hb 11 then 2 else if Qle_bool hb 13.5 then 1 else 0.
Definition table_na (na : Q) : Z := if Qltb na 135 then 2 else 0.
Definition table_creat (creat : Q) : Z := if Qltb 1.6 creat then 2 else 0.
Definition table_glucose (glucose : Q) : Z := if Qltb 180 glucose then 1 else 0.

Definition table_score (crp wbc hb na creat glucose : Q) : Z :=
  table_crp crp + table_wbc wbc + table_hb hb + table_na na
  + table_creat creat + table_glucose glucose.

Lemma crp_step (s : Z) (crp : Q) :
  (if Qle_bool 150 crp then (s + 4)%Z else s) = (s + table_crp crp)%Z.
Proof. unfold table_crp. qcases; lia. Qed.

Lemma wbc_step (s : Z) (wbc : Q) :
  (if Qle_bool 15 wbc && Qle_bool wbc 25 then (s + 1)%Z
   else if Qltb 25 wbc then (s + 2)%Z else s) = (s + table_wbc wbc)%Z.
Proof.
  unfold table_wbc. qcases; try lia; exfalso; lra.
Qed.

Lemma hb_step (s : Z) (hb : Q) :
  (if Qle_bool 11 hb && Qle_bool hb 13.5 then (s + 1)%Z
   else if Qltb hb 11 then (s + 2)%Z else s) = (s + table_hb hb)%Z.
Proof.
  unfold table_hb. qcases; try lia; exfalso; lra.
Qed.

Lemma lt_step (s k : Z) (a b : Q) :
  (if Qltb a b then (s + k)%Z else s) = (s + if Qltb a b then k else 0)%Z.
Proof. destruct (Qltb a b); lia. Qed.

(** The score computed by [calculate_lrinec] is the table's score. *)
Lemma lrinec_score_table (crp wbc hb na creat glucose : Q) :
  lrinec_score (calculate_lrinec crp wbc hb na creat glucose)
  = table_score crp wbc hb na creat glucose.
Proof.
  unfold lrinec_score, calculate_lrinec, table_score.
  cbn zeta. rewrite crp_step, wbc_step, hb_step, !lt_step.
  unfold table_na, table_creat, table_glucose. simpl. lia.
Qed.

Lemma table_score_range (crp wbc hb na creat glucose : Q) :
  (0 <= table_score crp wbc hb na creat glucose <= 13)%Z.
Proof.
  unfold table_score, table_crp, table_wbc, table_hb, table_na, table_creat,
    table_glucose.
  qcases; lia.
Qed.

(** ** keyword hits *)

Lemma fold_hits_length (t : text) (kws : list text) (acc : Z) :
  fold_left (fun acc kw => if py_str_contains t kw then (acc + 1)%Z else acc) kws acc
  = (acc + Z.of_nat (length (filter (py_str_contains t) kws)))%Z.
Proof.
  revert acc. induction kws as [|kw kws IH]; intros acc; simpl.
  - lia.
  - rewrite IH. destruct (py_str_contains t kw); simpl; lia.
Qed.

(** [hits] is the number of keywords that occur in the text. *)
Lemma keyword_hits_filter (t : text) :
  keyword_hits t = Z.of_nat (length (filter (py_str_contains t) keywords)).
Proof. unfold keyword_hits. rewrite fold_hits_length. lia. Qed.

Lemma keyword_hits_range (t : text) : (0 <= keyword_hits t <= 7)%Z.
Proof.
  rewrite keyword_hits_filter.
  pose proof (filter_length_le (py_str_contains t) keywords) as H.
  change (length keywords) with 7%nat in H. lia.
Qed.

(** ** combine_risk *)

Lemma combine_risk_keyword_ge (base : Q) (tf : option Q) :
  base <= 1 -> (forall s, tf = Some s -> 0 <= s) ->
  base <= combine_risk base tf false.
Proof.
  intros Hb Htf. unfold combine_risk. destruct tf as [s|].
  - specialize (Htf s eq_refl). unfold py_float_truthy, clamp, py_max, py_min.
    qcases; lra.
  - lra.
Qed.

(** * Claims *)

(** C7: [normalize_demo v c] is [0] when [c <= 0] and [clamp(v / c)] to
    [[0, 1]] otherwise; its value is always in [[0, 1]] (for every [v], in
    particular every [v >= 0]), and [normalize_demo v 0 = 0].  Totality is
    the type: the function returns a [Q] for every input. *)
Theorem normalize_demo_claim : forall v c : Q,
  (c <= 0 -> normalize_demo v c = 0) /\
  (0 < c -> normalize_demo v c = clamp (v / c) 0 1) /\
  (0 <= normalize_demo v c <= 1) /\
  normalize_demo v 0 = 0.
Proof.
  intros v c. split; [|split; [|split]].
  - intros H. unfold normalize_demo. qcases; [reflexivity | lra].
  - intros H. unfold normalize_demo. qcases; [lra | reflexivity].
  - apply normalize_demo_range.
  - reflexivity.
Qed.

Lemma normalize_demo_claim_witness :
  (0 < 300 /\ normalize_demo 450 300 = clamp (450 / 300) 0 1) /\
  ((-2) <= 0 /\ normalize_demo 7 (-2) = 0).
Proof.
  split; split.
  - reflexivity.
  - apply (proj1 (proj2 (normalize_demo_claim 450 300))). reflexivity.
  - discriminate.
  - apply (proj1 (normalize_demo_claim 7 (-2))). discriminate.
Defined.

(** C5: [risk_label] returns ("Alto", "danger", "#dc3545") from 0.6 on,
    ("Intermedio", "warning", "#ffc107") on [[0.3, 0.6)] and
    ("Bajo", "success", "#198754") below 0.3, with the boundary cases
    0.6, 0.599999, 0.3 and 0.29999. *)
Theorem risk_label_claim : forall p : Q,
  (0.6 <= p -> risk_label p = ("Alto", "danger", "#dc3545")%string) /\
  (0.3 <= p < 0.6 -> risk_label p = ("Intermedio", "warning", "#ffc107")%string) /\
  (p < 0.3 -> risk_label p = ("Bajo", "success", "#198754")%string) /\
  fst (fst (risk_label 0.6)) = "Alto"%string /\
  fst (fst (risk_label 0.599999)) = "Intermedio"%string /\
  fst (fst (risk_label 0.3)) = "Intermedio"%string /\
  fst (fst (risk_label 0.29999)) = "Bajo"%string.
Proof.
  intros p. unfold risk_label.
  split; [|split; [|split]].
  - intros H. qcases; first [reflexivity | lra].
  - intros H. qcases; first [reflexivity | lra].
  - intros H. qcases; first [reflexivity | lra].
  - vm_compute. repeat split.
Qed.

Lemma risk_label_claim_witness :
  risk_label 0.75 = ("Alto", "danger", "#dc3545")%string /\
  risk_label 0.45 = ("Intermedio", "warning", "#ffc107")%string /\
  risk_label 0.1 = ("Bajo", "success", "#198754")%string.
Proof.
  split; [|split].
  - apply (proj1 (risk_label_claim 0.75)). qnum.
  - apply (proj1 (proj2 (risk_label_claim 0.45))). qnum.
  - apply (proj1 (proj2 (proj2 (risk_label_claim 0.1)))). qnum.
Defined.

(** C3: with the external model active and a signal present,
    [combine_risk] blends [clamp(0.7 * base + 0.3 * signal)]; otherwise a
    present non-zero signal is added, [clamp(base + signal)]; in every other
    case (no signal, or a zero signal without the external model) the base
    probability is returned unchanged.  With the spec's three examples. *)
Theorem combine_risk_claim : forall (base t : Q) (ai : bool),
  combine_risk base (Some t) true = clamp (0.7 * base + 0.3 * t) 0 1 /\
  (~ t == 0 -> combine_risk base (Some t) false = clamp (base + t) 0 1) /\
  (t == 0 -> combine_risk base (Some t) false = base) /\
  combine_risk base None ai = base /\
  combine_risk 0.5 (Some 0.2) true == 0.41 /\
  combine_risk 0.5 (Some 0.2) false == 0.7 /\
  combine_risk 0.9 None false == 0.9.
Proof.
  intros base t ai. split; [|split; [|split; [|split]]].
  - reflexivity.
  - intros H. unfold combine_risk, py_float_truthy. qcases; [lra | reflexivity].
  - intros H. unfold combine_risk, py_float_truthy. qcases; [reflexivity | lra].
  - reflexivity.
  - repeat split; qnum.
Qed.

Lemma combine_risk_claim_witness :
  combine_risk 0.5 (Some 0.2) false = clamp (0.5 + 0.2) 0 1 /\
  combine_risk 0.5 (Some 0) false = 0.5.
Proof.
  split.
  - apply (proj1 (proj2 (combine_risk_claim 0.5 0.2 false))). qnum.
  - apply (proj1 (proj2 (proj2 (combine_risk_claim 0.5 0 false)))). qnum.
Defined.

(** C10: a present signal equal to 0 with the external model active takes
    the blend branch, giving [clamp(0.7 * base)], strictly below [base] for
    [0 < base <= 1]; on the keyword path (external model off, signal absent
    or [>= 0]) the result is never below a base probability [<= 1]. *)
Theorem combine_risk_zero_signal_claim :
  (forall base : Q,
     combine_risk base (Some 0) true == clamp (0.7 * base) 0 1) /\
  (forall base : Q, 0 < base <= 1 -> combine_risk base (Some 0) true < base) /\
  (forall (base : Q) (tf : option Q),
     base <= 1 -> (forall s, tf = Some s -> 0 <= s) ->
     base <= combine_risk base tf false).
Proof.
  split; [|split].
  - intros base. unfold combine_risk. apply clamp_compat. ring.
  - intros base H. unfold combine_risk, clamp, py_max, py_min. qcases; lra.
  - exact combine_risk_keyword_ge.
Qed.

Lemma combine_risk_zero_signal_claim_witness :
  combine_risk 0.5 (Some 0) true < 0.5 /\ 0.5 <= combine_risk 0.5 (Some 0.1) false.
Proof.
  split.
  - apply (proj1 (proj2 combine_risk_zero_signal_claim)). qnum.
  - apply (proj2 (proj2 combine_risk_zero_signal_claim)).
    + qnum.
    + intros s H. injection H as <-. qnum.
Defined.

(** C1: the LRINEC score of [calculate_lrinec] is the sum of the table's
    per-lab points (CRP >= 150: 4; WBC in [15, 25]: 1, WBC > 25: 2; Hb in
    [11, 13.5]: 1, Hb < 11: 2; Na < 135: 2; creatinine > 1.6: 2;
    glucose > 180: 1); the level is "Alto" (High) from 8, "Intermedio" on
    [6, 8) and "Bajo" (Low) below 6; the probability is
    [sigmoid((score - 6.5) / 1.5)]; and (150, 20, 10, 130, 2.0, 200) gives
    score 12 and level "Alto". *)
Theorem calculate_lrinec_claim : forall crp wbc hb na creat glucose : Q,
  let r := calculate_lrinec crp wbc hb na creat glucose in
  lrinec_score r = table_score crp wbc hb na creat glucose /\
  ((8 <= lrinec_score r)%Z -> lrinec_level r = "Alto"%string) /\
  ((6 <= lrinec_score r < 8)%Z -> lrinec_level r = "Intermedio"%string) /\
  ((lrinec_score r < 6)%Z -> lrinec_level r = "Bajo"%string) /\
  lrinec_prob r = sigmoid ((IZR (lrinec_score r) - 6.5) / 1.5)%R /\
  lrinec_score (calculate_lrinec 150 20 10 130 2.0 200) = 12%Z /\
  lrinec_level (calculate_lrinec 150 20 10 130 2.0 200) = "Alto"%string.
Proof.
  intros crp wbc hb na creat glucose r.
  assert (Hl : lrinec_level r =
            if (8 <=? lrinec_score r)%Z then "Alto"%string
            else if (6 <=? lrinec_score r)%Z then "Intermedio"%string
            else "Bajo"%string) by reflexivity.
  split; [apply lrinec_score_table|].
  split; [|split; [|split; [|split]]].
  - intros H. rewrite Hl. destruct (Z.leb_spec 8 (lrinec_score r)); [reflexivity | lia].
  - intros H. rewrite Hl.
    destruct (Z.leb_spec 8 (lrinec_score r)); [lia|].
    destruct (Z.leb_spec 6 (lrinec_score r)); [reflexivity | lia].
  - intros H. rewrite Hl.
    destruct (Z.leb_spec 8 (lrinec_score r)); [lia|].
    destruct (Z.leb_spec 6 (lrinec_score r)); [lia | reflexivity].
  - reflexivity.
  - split; vm_compute; reflexivity.
Qed.

(** C2 (as amended): the LRINEC score lies in [[0, 13]], not [[0, 10]]; both
    ends are reached by non-negative inputs. *)
Theorem calculate_lrinec_score_range : forall crp wbc hb na creat glucose : Q,
  (0 <= lrinec_score (calculate_lrinec crp wbc hb na creat glucose) <= 13)%Z /\
  lrinec_score (calculate_lrinec 150 30 10 130 2.0 200) = 13%Z /\
  lrinec_score (calculate_lrinec 0 0 14 140 0 0) = 0%Z.
Proof.
  intros. rewrite lrinec_score_table. split; [apply table_score_range|].
  split; vm_compute; reflexivity.
Qed.

(** C2 fails: the non-negative inputs (150, 30, 10, 130, 2.0, 200) score 13. *)
Lemma calculate_lrinec_score_above_10 :
  ~ (lrinec_score (calculate_lrinec 150 30 10 130 2.0 200) <= 10)%Z.
Proof. vm_compute. intro H. apply H. reflexivity. Qed.

(** C4 (as amended): [keywords_factor] is [clamp(0.05 * hits, 0, 0.3)] where
    [hits] is the number of the seven keywords occurring at least once as a
    substring of the lower-cased text; a keyword repeated in the text counts
    once; two keyword hits give 0.10. *)
Theorem keywords_factor_distinct_hits : forall txt : text,
  keywords_factor txt ==
    clamp (0.05 * inject_Z (Z.of_nat
             (length (filter (py_str_contains (py_lower txt)) keywords)))) 0 0.3 /\
  (keyword_hits (py_lower txt) = 2%Z -> keywords_factor txt == 0.10) /\
  keywords_factor (cps "sepsis sepsis") == 0.05 /\
  keywords_factor (cps "SEPSIS, bullas y sepsis") == 0.10.
Proof.
  intros txt. split; [|split].
  - unfold keywords_factor. rewrite keyword_hits_filter. reflexivity.
  - intros H. unfold keywords_factor. rewrite H. qnum.
  - split; qnum.
Qed.

Lemma keywords_factor_distinct_hits_witness :
  keyword_hits (py_lower (cps "Necrosis con crepitaci" ++ [o_acute] ++ cps "n")) = 2%Z /\
  keywords_factor (cps "Necrosis con crepitaci" ++ [o_acute] ++ cps "n") == 0.10.
Proof.
  split.
  - vm_compute. reflexivity.
  - apply (proj1 (proj2 (keywords_factor_distinct_hits _))). vm_compute. reflexivity.
Defined.

(** C4 fails: "sepsis sepsis" has two occurrences of one keyword, but its
    factor is 0.05, not 0.05 * 2. *)
Lemma keywords_factor_repeated_keyword :
  ~ (keywords_factor (cps "sepsis sepsis") == 0.05 * 2).
Proof. vm_compute. discriminate. Qed.

(** ** sigmoid *)

Open Scope R_scope.

Lemma sigmoid_bounds (x : R) : 0 < sigmoid x < 1.
Proof.
  unfold sigmoid. pose proof (exp_pos (- x)) as He. split.
  - apply Rdiv_lt_0_compat; lra.
  - assert (Hd : 1 / (1 + exp (- x)) * (1 + exp (- x)) = 1) by (field; lra).
    pose proof (Rdiv_lt_0_compat 1 (1 + exp (- x)) ltac:(lra) ltac:(lra)).
    nra.
Qed.

Lemma sigmoid_mono (x y : R) : x <= y -> sigmoid x <= sigmoid y.
Proof.
  intros H. unfold sigmoid.
  assert (Hexp : exp (- y) <= exp (- x)).
  { destruct (Rle_lt_or_eq_dec x y H) as [Hlt | ->].
    - left. apply exp_increasing. lra.
    - lra. }
  pose proof (exp_pos (- y)).
  unfold Rdiv. rewrite !Rmult_1_l. apply Rinv_le_contravar; lra.
Qed.

Lemma Q2R_literal_3 : Q2R 3 = 3.
Proof. unfold Q2R. simpl. lra. Qed.

Lemma Q2R_demo_arg (z : Q) : Q2R (3 * z - 1.5) = 3 * Q2R z - 1.5.
Proof. rewrite Q2R_minus, Q2R_mult, Q2R_literal_3. reflexivity. Qed.

Lemma demo_z_range (pcr wbc esr : Q) : (0 <= demo_z pcr wbc esr <= 1)%Q.
Proof.
  unfold demo_z.
  pose proof (normalize_demo_range pcr 300).
  pose proof (normalize_demo_range wbc 40).
  pose proof (normalize_demo_range esr 150).
  lra.
Qed.

Lemma calculate_demo_sigmoid_z (pcr wbc esr : Q) :
  calculate_demo pcr wbc esr = sigmoid (3 * Q2R (demo_z pcr wbc esr) - 1.5).
Proof. unfold calculate_demo. now rewrite Q2R_demo_arg. Qed.

Lemma calculate_demo_mono_z (pcr wbc esr pcr' wbc' esr' : Q) :
  (demo_z pcr wbc esr <= demo_z pcr' wbc' esr')%Q ->
  calculate_demo pcr wbc esr <= calculate_demo pcr' wbc' esr'.
Proof.
  intros H. rewrite !calculate_demo_sigmoid_z. apply sigmoid_mono.
  apply Qle_Rle in H. lra.
Qed.

(** ** Numerical bounds on [exp (1.5)]

    [exp (n * x) = exp x ^ n] and [1 + x <= exp x] give rational bounds for
    [exp 1.5] and [exp (-1.5)] through [(1 +/- 3/256)^128], evaluated in [Q]. *)

Fixpoint qpow (q : Q) (n : nat) : Q :=
  match n with
  | O => 1%Q
  | S k => (q * qpow q k)%Q
  end.

Lemma Q2R_qpow (q : Q) (n : nat) : Q2R (qpow q n) = Q2R q ^ n.
Proof.
  induction n as [|n IH]; simpl.
  - unfold Q2R. simpl. lra.
  - rewrite Q2R_mult, IH. reflexivity.
Qed.

Lemma exp_nat_mul (n : nat) (x : R) : exp (INR n * x) = exp x ^ n.
Proof.
  induction n as [|n IH].
  - simpl. rewrite Rmult_0_l. apply exp_0.
  - rewrite S_INR, Rmult_plus_distr_r, Rmult_1_l, exp_plus, IH. simpl. ring.
Qed.

Lemma exp_1_5_lower : 4.3 < exp 1.5.
Proof.
  replace 1.5 with (INR 128 * (3 / 256))
    by (rewrite INR_IZR_INZ; simpl; lra).
  rewrite exp_nat_mul.
  assert (Hq : Q2R (43 # 10) < Q2R (qpow (259 # 256) 128)).
  { apply Qlt_Rlt. vm_compute. reflexivity. }
  rewrite Q2R_qpow in Hq.
  replace (Q2R (259 # 256)) with (1 + 3 / 256) in Hq by (unfold Q2R; simpl; lra).
  replace (Q2R (43 # 10)) with 4.3 in Hq by (unfold Q2R; simpl; lra).
  pose proof (pow_incr (1 + 3 / 256) (exp (3 / 256)) 128) as Hp.
  pose proof (exp_ineq1_le (3 / 256)).
  assert (1 + 3 / 256 <= exp (3 / 256)) by lra.
  specialize (Hp ltac:(lra)). lra.
Qed.

Lemma exp_m1_5_lower : 0.22 < exp (- 1.5).
Proof.
  replace (- 1.5) with (INR 128 * (- (3 / 256)))
    by (rewrite INR_IZR_INZ; simpl; lra).
  rewrite exp_nat_mul.
  assert (Hq : Q2R (22 # 100) < Q2R (qpow (253 # 256) 128)).
  { apply Qlt_Rlt. vm_compute. reflexivity. }
  rewrite Q2R_qpow in Hq.
  replace (Q2R (253 # 256)) with (1 + - (3 / 256)) in Hq by (unfold Q2R; simpl; lra).
  replace (Q2R (22 # 100)) with 0.22 in Hq by (unfold Q2R; simpl; lra).
  pose proof (pow_incr (1 + - (3 / 256)) (exp (- (3 / 256))) 128) as Hp.
  pose proof (exp_ineq1_le (- (3 / 256))).
  specialize (Hp ltac:(lra)). lra.
Qed.

Lemma exp_1_5_upper : exp 1.5 < 1 / 0.22.
Proof.
  pose proof exp_m1_5_lower as H. pose proof (exp_pos 1.5) as Hp.
  assert (Hinv : exp 1.5 * exp (- 1.5) = 1).
  { rewrite <- exp_plus. replace (1.5 + - 1.5) with 0 by lra. apply exp_0. }
  assert (exp 1.5 * 0.22 < 1) by nra.
  unfold Rdiv. rewrite Rmult_1_l.
  apply (Rmult_lt_reg_r 0.22); [lra|]. rewrite Rinv_l by lra. lra.
Qed.

Lemma sigmoid_m1_5_bounds : 0.18 < sigmoid (- 1.5) < 0.19.
Proof.
  unfold sigmoid. replace (- (- 1.5)) with 1.5 by lra.
  pose proof exp_1_5_lower. pose proof exp_1_5_upper.
  assert (H22 : 1 / 0.22 < 1 / 0.18 - 1) by lra.
  split.
  - apply (Rmult_lt_reg_r (1 + exp 1.5)); [lra|].
    replace (1 / (1 + exp 1.5) * (1 + exp 1.5)) with 1 by (field; lra). lra.
  - apply (Rmult_lt_reg_r (1 + exp 1.5)); [lra|].
    replace (1 / (1 + exp 1.5) * (1 + exp 1.5)) with 1 by (field; lra). lra.
Qed.

Lemma sigmoid_1_5_bounds : 0.81 < sigmoid 1.5 < 0.82.
Proof.
  unfold sigmoid. replace (Ropp 1.5) with (- 1.5) by lra.
  pose proof exp_m1_5_lower as Hlo. pose proof exp_1_5_lower as H43.
  assert (Hinv : exp 1.5 * exp (- 1.5) = 1).
  { rewrite <- exp_plus. replace (1.5 + - 1.5) with 0 by lra. apply exp_0. }
  assert (Hhi : exp (- 1.5) < 0.2326) by nra.
  split.
  - apply (Rmult_lt_reg_r (1 + exp (- 1.5))); [lra|].
    replace (1 / (1 + exp (- 1.5)) * (1 + exp (- 1.5))) with 1 by (field; lra). lra.
  - apply (Rmult_lt_reg_r (1 + exp (- 1.5))); [lra|].
    replace (1 / (1 + exp (- 1.5)) * (1 + exp (- 1.5))) with 1 by (field; lra). lra.
Qed.

(** C6: [calculate_demo pcr wbc esr] is [1 / (1 + e^-(3z - 1.5))] with
    [z = 0.4 * n_pcr + 0.35 * n_wbc + 0.25 * n_esr], the inputs normalized by
    [normalize_demo] against 300, 40 and 150; the value lies in [(0, 1)].
    [calculate_demo] is a total function of type [Q -> Q -> Q -> R]. *)
Theorem calculate_demo_claim : forall pcr wbc esr : Q,
  calculate_demo pcr wbc esr =
    1 / (1 + exp (- (3 * Q2R (0.4 * normalize_demo pcr 300
                              + 0.35 * normalize_demo wbc 40
                              + 0.25 * normalize_demo esr 150)%Q - 1.5))) /\
  0 < calculate_demo pcr wbc esr < 1.
Proof.
  intros pcr wbc esr. split.
  - rewrite calculate_demo_sigmoid_z. unfold sigmoid. do 6 f_equal.
    apply Qeq_eqR. unfold demo_z. ring.
  - apply sigmoid_bounds.
Qed.

(** C8: [calculate_demo] is non-decreasing in each of [pcr], [wbc] and
    [esr] when the other two are fixed (for all rational inputs, in
    particular the non-negative ones). *)
Theorem calculate_demo_monotone :
  (forall pcr pcr' wbc esr : Q, (pcr <= pcr')%Q ->
     calculate_demo pcr wbc esr <= calculate_demo pcr' wbc esr) /\
  (forall pcr wbc wbc' esr : Q, (wbc <= wbc')%Q ->
     calculate_demo pcr wbc esr <= calculate_demo pcr wbc' esr) /\
  (forall pcr wbc esr esr' : Q, (esr <= esr')%Q ->
     calculate_demo pcr wbc esr <= calculate_demo pcr wbc esr').
Proof.
  split; [|split]; intros;
    apply calculate_demo_mono_z; unfold demo_z.
  - pose proof (normalize_demo_mono pcr pcr' 300 H). lra.
  - pose proof (normalize_demo_mono wbc wbc' 40 H). lra.
  - pose proof (normalize_demo_mono esr esr' 150 H). lra.
Qed.

Lemma calculate_demo_monotone_witness :
  calculate_demo 100 10 50 <= calculate_demo 200 10 50 /\
  calculate_demo 100 10 50 <= calculate_demo 100 30 50 /\
  calculate_demo 100 10 50 <= calculate_demo 100 10 90.
Proof.
  split; [|split].
  - apply (proj1 calculate_demo_monotone). qnum.
  - apply (proj1 (proj2 calculate_demo_monotone)). qnum.
  - apply (proj2 (proj2 calculate_demo_monotone)). qnum.
Defined.

(** C9: since [z] lies in [[0, 1]], [calculate_demo] always lies in
    [[sigmoid (-1.5), sigmoid 1.5]], an interval inside [(0.18, 0.82)]; the
    lower end is reached by all-zero labs. *)
Theorem calculate_demo_bounded :
  (forall pcr wbc esr : Q,
     sigmoid (- 1.5) <= calculate_demo pcr wbc esr <= sigmoid 1.5) /\
  calculate_demo 0 0 0 = sigmoid (- 1.5) /\
  0.18 < sigmoid (- 1.5) < 0.19 /\
  0.81 < sigmoid 1.5 < 0.82.
Proof.
  split; [|split; [|split]].
  - intros pcr wbc esr. rewrite calculate_demo_sigmoid_z.
    pose proof (demo_z_range pcr wbc esr) as [H0 H1].
    apply Qle_Rle in H0. apply Qle_Rle in H1.
    replace (Q2R 0) with 0 in H0 by (unfold Q2R; simpl; lra).
    replace (Q2R 1) with 1 in H1 by (unfold Q2R; simpl; lra).
    split; apply sigmoid_mono; lra.
  - rewrite calculate_demo_sigmoid_z. f_equal.
    replace (Q2R (demo_z 0 0 0)) with 0 by (vm_compute demo_z; unfold Q2R; simpl; lra).
    lra.
  - apply sigmoid_m1_5_bounds.
  - apply sigmoid_1_5_bounds.
Qed.

(** * Further properties of app.py *)

Open Scope Q_scope.

(** ** ai_text_factor *)

Lemma clamp_f_fin (v lo hi : Q) :
  clamp_f (PFin v) (PFin lo) (PFin hi) = PFin (clamp v lo hi).
Proof.
  unfold clamp_f, pf_max, pf_min, clamp, py_max, py_min. simpl.
  destruct (Qltb hi v); simpl; destruct (Qltb lo _); reflexivity.
Qed.

(** Clamping to [[0, 1]] sends every float, NaN and infinities included, to
    a finite value in [[0, 1]]. *)
Lemma clamp_f_unit (v : pyfloat) :
  exists q, clamp_f v (PFin 0) (PFin 1) = PFin q /\ 0 <= q <= 1.
Proof.
  destruct v as [q| | |].
  - rewrite clamp_f_fin. exists (clamp q 0 1). split; [reflexivity|].
    apply clamp_bounds. lra.
  - exists 1. split; [reflexivity | lra].
  - exists 0. split; [reflexivity | lra].
  - exists 0. split; [reflexivity | lra].
Qed.

(** [ai_text_factor] returns [None] whenever the key or the client library
    is missing, and otherwise either [None] or a finite value in [[0, 1]]:
    whatever the service answers and whatever [float()] makes of it. *)
Theorem ai_text_factor_finite :
  forall (py_float : text -> option pyfloat) (api_key : option text)
         (openai_available : bool) (api : text -> option text) (txt : text),
  (ai_active api_key openai_available = false ->
   ai_text_factor py_float api_key openai_available api txt = None) /\
  (ai_text_factor py_float api_key openai_available api txt = None \/
   exists q, ai_text_factor py_float api_key openai_available api txt = Some (PFin q)
             /\ 0 <= q <= 1).
Proof.
  intros py_float api_key avail api txt. unfold ai_text_factor. split.
  - intros H. rewrite H. reflexivity.
  - destruct (ai_active api_key avail); cbn [negb]; cbn zeta; [|now left].
    destruct (api (ai_prompt_prefix ++ txt)) as [out|]; [|now left].
    destruct (py_float _) as [v|]; [|now left].
    right. destruct (clamp_f_unit v) as [q [Hq Hr]]. exists q. rewrite Hq. auto.
Qed.

Lemma ai_text_factor_finite_witness :
  ai_text_factor (fun _ => Some PNaN) None true (fun _ => Some (cps "0.5")) (cps "x") = None.
Proof. apply (proj1 (ai_text_factor_finite _ _ _ _ _)). reflexivity. Defined.

(** The parse of the reply decides the value: "nan" and "-inf" give 0.0,
    "inf" gives 1.0, a finite [q] gives [clamp(q)], and a [ValueError] gives
    [None]; the reply is first stripped and its commas turned into points. *)
Theorem ai_text_factor_reply :
  forall (py_float : text -> option pyfloat) (api_key : option text)
         (openai_available : bool) (api : text -> option text) (txt out : text),
  ai_active api_key openai_available = true ->
  api (ai_prompt_prefix ++ txt) = Some out ->
  let parsed := py_float (py_replace_comma (py_strip out)) in
  let r := ai_text_factor py_float api_key openai_available api txt in
  (parsed = Some PNaN -> r = Some (PFin 0)) /\
  (parsed = Some PInf -> r = Some (PFin 1)) /\
  (parsed = Some PNegInf -> r = Some (PFin 0)) /\
  (forall q, parsed = Some (PFin q) -> r = Some (PFin (clamp q 0 1))) /\
  (parsed = None -> r = None).
Proof.
  intros py_float api_key avail api txt out Ha Hapi parsed r.
  unfold r, ai_text_factor. rewrite Ha, Hapi. cbn zeta. fold parsed.
  split; [|split; [|split; [|split]]].
  - intros H. now rewrite H.
  - intros H. now rewrite H.
  - intros H. now rewrite H.
  - intros q H. rewrite H. now rewrite clamp_f_fin.
  - intros H. now rewrite H.
Qed.

(** [float()] recognising the literal "nan" only. *)
Definition nan_only_float (s : text) : option pyfloat :=
  if list_eq_dec Z.eq_dec s (cps "nan") then Some PNaN else None.

Lemma ai_text_factor_reply_witness :
  ai_text_factor nan_only_float (Some (cps "sk")) true
    (fun _ => Some (cps " nan" ++ [10%Z])) (cps "dolor") = Some (PFin 0).
Proof.
  apply (proj1 (ai_text_factor_reply nan_only_float (Some (cps "sk")) true
                  (fun _ => Some (cps " nan" ++ [10%Z])) (cps "dolor")
                  (cps " nan" ++ [10%Z]) eq_refl eq_refl)).
  vm_compute. reflexivity.
Defined.

(** ** combine_risk *)

(** For a base probability in [[0, 1]], the combined probability is in
    [[0, 1]] whatever the text factor and whichever provider is active. *)
Theorem combine_risk_unit_interval : forall (base : Q) (tf : option Q) (ai : bool),
  0 <= base <= 1 -> 0 <= combine_risk base tf ai <= 1.
Proof.
  intros base tf ai H. unfold combine_risk.
  destruct tf as [t|]; [|exact H].
  destruct ai; [apply clamp_bounds; lra|].
  destruct (py_float_truthy t); [apply clamp_bounds; lra | exact H].
Qed.

Lemma combine_risk_unit_interval_witness :
  0 <= combine_risk 0.9 (Some 0.3) false <= 1.
Proof. apply combine_risk_unit_interval. qnum. Defined.

(** ** keywords_factor *)

Lemma is_prefix_app (p t v : text) :
  is_prefix p t = true -> is_prefix p (t ++ v) = true.
Proof.
  revert t. induction p as [|a p IH]; intros t H; [reflexivity|].
  destruct t as [|b t]; [discriminate|]. simpl in *.
  apply andb_true_iff in H as [H1 H2]. rewrite H1. simpl. now apply IH.
Qed.

Lemma py_str_contains_app_r (t v kw : text) :
  py_str_contains t kw = true -> py_str_contains (t ++ v) kw = true.
Proof.
  induction t as [|c t IH]; intros H.
  - simpl in H. destruct kw; [destruct v; reflexivity | discriminate].
  - simpl in *. apply orb_true_iff in H as [H|H].
    + change (c :: t ++ v) with ((c :: t) ++ v). rewrite (is_prefix_app _ _ _ H). reflexivity.
    + rewrite (IH H). apply orb_true_r.
Qed.

Lemma py_str_contains_app_l (u t kw : text) :
  py_str_contains t kw = true -> py_str_contains (u ++ t) kw = true.
Proof.
  induction u as [|c u IH]; intros H; [exact H|].
  simpl. rewrite (IH H). apply orb_true_r.
Qed.

Lemma filter_length_mono {A} (f g : A -> bool) (l : list A) :
  (forall x, f x = true -> g x = true) ->
  (length (filter f l) <= length (filter g l))%nat.
Proof.
  intros Hfg. induction l as [|x l IH]; simpl; [lia|].
  destruct (f x) eqn:Ef.
  - rewrite (Hfg x Ef). simpl. lia.
  - destruct (g x); simpl; lia.
Qed.

Lemma filter_all_false {A} (f : A -> bool) (l : list A) :
  (forall x, In x l -> f x = false) -> filter f l = [].
Proof.
  induction l as [|x l IH]; intros H; [reflexivity|]. simpl.
  rewrite (H x (or_introl eq_refl)). apply IH. intros y Hy. apply H. now right.
Qed.

Lemma keyword_hits_app (u t v : text) :
  (keyword_hits t <= keyword_hits (u ++ t ++ v))%Z.
Proof.
  rewrite !keyword_hits_filter.
  enough (length (filter (py_str_contains t) keywords)
          <= length (filter (py_str_contains (u ++ t ++ v)) keywords))%nat by lia.
  apply filter_length_mono. intros kw H.
  apply py_str_contains_app_l, py_str_contains_app_r, H.
Qed.

(** Adding text before or after the notes never lowers the keyword factor:
    a keyword found stays found. *)
Theorem keywords_factor_extend : forall u t v : text,
  keywords_factor t <= keywords_factor (u ++ t ++ v).
Proof.
  intros u t v. unfold keywords_factor, py_lower.
  rewrite !map_app. apply clamp_mono.
  pose proof (keyword_hits_app (map py_lower_cp u) (map py_lower_cp t)
                               (map py_lower_cp v)) as H.
  rewrite Zle_Qle in H. lra.
Qed.

Lemma py_lower_cp_idem (c : Z) : py_lower_cp (py_lower_cp c) = py_lower_cp c.
Proof.
  unfold py_lower_cp.
  destruct ((65 <=? c) && (c <=? 90))%Z eqn:E1.
  - apply andb_true_iff in E1 as [E1 E2]. apply Z.leb_le in E1, E2.
    replace ((65 <=? c + 32) && (c + 32 <=? 90))%Z with false
      by (symmetry; apply andb_false_iff; right; apply Z.leb_gt; lia).
    replace ((192 <=? c + 32) && (c + 32 <=? 222) && negb (c + 32 =? 215))%Z with false
      by (symmetry; apply andb_false_iff; left; apply andb_false_iff; left;
          apply Z.leb_gt; lia).
    reflexivity.
  - destruct ((192 <=? c) && (c <=? 222) && negb (c =? 215))%Z eqn:E2.
    + apply andb_true_iff in E2 as [E2 E3]. apply andb_true_iff in E2 as [E2 E4].
      apply Z.leb_le in E2, E4.
      replace ((65 <=? c + 32) && (c + 32 <=? 90))%Z with false
        by (symmetry; apply andb_false_iff; right; apply Z.leb_gt; lia).
      replace ((192 <=? c + 32) && (c + 32 <=? 222) && negb (c + 32 =? 215))%Z with false
        by (symmetry; apply andb_false_iff; left; apply andb_false_iff; right;
            apply Z.leb_gt; lia).
      reflexivity.
    + rewrite E1, E2. reflexivity.
Qed.

(** The factor ignores case: lower-casing the notes first changes nothing
    (for the case mapping modelled by [py_lower_cp]). *)
Theorem keywords_factor_lower : forall t : text,
  keywords_factor (py_lower t) = keywords_factor t.
Proof.
  intros t. unfold keywords_factor. f_equal. f_equal. f_equal. f_equal.
  unfold py_lower. rewrite map_map. apply map_ext. apply py_lower_cp_idem.
Qed.

(** The factor is [0.05] times the number of keywords found, capped at 6
    keywords (0.3); it is 0 exactly when no keyword occurs in the
    lower-cased notes. *)
Theorem keywords_factor_values : forall t : text,
  keywords_factor t == 0.05 * inject_Z (Z.min (keyword_hits (py_lower t)) 6) /\
  (keywords_factor t == 0 <->
   forall kw, In kw keywords -> py_str_contains (py_lower t) kw = false).
Proof.
  intros t.
  assert (Hv : keywords_factor t == 0.05 * inject_Z (Z.min (keyword_hits (py_lower t)) 6)).
  { unfold keywords_factor. cbn zeta.
    pose proof (keyword_hits_range (py_lower t)) as Hr.
    destruct (keyword_hits (py_lower t)) as [|p|p]; [qnum| |lia].
    assert (p = 1 \/ p = 2 \/ p = 3 \/ p = 4 \/ p = 5 \/ p = 6 \/ p = 7)%positive
      as Hp by lia.
    repeat destruct Hp as [-> | Hp]; try qnum. subst. qnum. }
  split; [exact Hv|]. rewrite Hv.
  rewrite keyword_hits_filter. split.
  - intros H0 kw Hin.
    destruct (py_str_contains (py_lower t) kw) eqn:E; [|reflexivity]. exfalso.
    assert (Hpos : (0 < length (filter (py_str_contains (py_lower t)) keywords))%nat).
    { destruct (filter (py_str_contains (py_lower t)) keywords) eqn:Ef; simpl; [|lia].
      assert (In kw (filter (py_str_contains (py_lower t)) keywords))
        by (apply filter_In; auto).
      rewrite Ef in H. destruct H. }
    destruct (length (filter (py_str_contains (py_lower t)) keywords)) as [|n]; [lia|].
    revert H0. rewrite Nat2Z.inj_succ.
    assert (Hmin : (1 <= Z.min (Z.succ (Z.of_nat n)) 6)%Z) by lia.
    rewrite Zle_Qle in Hmin. change (inject_Z 1) with 1 in Hmin. lra.
  - intros H. replace (filter (py_str_contains (py_lower t)) keywords) with (@nil text).
    + qnum.
    + symmetry. apply filter_all_false. exact H.
Qed.

(** ** LRINEC score: monotonicity *)

Ltac table_mono := qcases; first [lia | exfalso; lra].

Lemma table_crp_mono (a b : Q) : a <= b -> (table_crp a <= table_crp b)%Z.
Proof. intros H. unfold table_crp. table_mono. Qed.
Lemma table_wbc_mono (a b : Q) : a <= b -> (table_wbc a <= table_wbc b)%Z.
Proof. intros H. unfold table_wbc. table_mono. Qed.
Lemma table_hb_anti (a b : Q) : a <= b -> (table_hb b <= table_hb a)%Z.
Proof. intros H. unfold table_hb. table_mono. Qed.
Lemma table_na_anti (a b : Q) : a <= b -> (table_na b <= table_na a)%Z.
Proof. intros H. unfold table_na. table_mono. Qed.
Lemma table_creat_mono (a b : Q) : a <= b -> (table_creat a <= table_creat b)%Z.
Proof. intros H. unfold table_creat. table_mono. Qed.
Lemma table_glucose_mono (a b : Q) : a <= b -> (table_glucose a <= table_glucose b)%Z.
Proof. intros H. unfold table_glucose. table_mono. Qed.

(** The LRINEC score never decreases when CRP, WBC, creatinine or glucose
    rise, or when haemoglobin or sodium fall. *)
Theorem calculate_lrinec_score_monotone :
  forall crp crp' wbc wbc' hb hb' na na' creat creat' glucose glucose' : Q,
  crp <= crp' -> wbc <= wbc' -> hb' <= hb -> na' <= na ->
  creat <= creat' -> glucose <= glucose' ->
  (lrinec_score (calculate_lrinec crp wbc hb na creat glucose)
   <= lrinec_score (calculate_lrinec crp' wbc' hb' na' creat' glucose'))%Z.
Proof.
  intros. rewrite !lrinec_score_table. unfold table_score.
  pose proof (table_crp_mono _ _ H). pose proof (table_wbc_mono _ _ H0).
  pose proof (table_hb_anti _ _ H1). pose proof (table_na_anti _ _ H2).
  pose proof (table_creat_mono _ _ H3). pose proof (table_glucose_mono _ _ H4).
  lia.
Qed.

Lemma calculate_lrinec_score_monotone_witness :
  (lrinec_score (calculate_lrinec 100 10 14 140 1 100)
   <= lrinec_score (calculate_lrinec 160 20 12 130 2 190))%Z.
Proof. apply calculate_lrinec_score_monotone; qnum. Defined.

(** ** LRINEC probability and level *)

Open Scope R_scope.

Lemma sigmoid_mul_denominator (x : R) : sigmoid x * (1 + exp (- x)) = 1.
Proof. unfold sigmoid. pose proof (exp_pos (- x)). field. lra. Qed.

Lemma sigmoid_ge (x c : R) : c * (1 + exp (- x)) <= 1 -> c <= sigmoid x.
Proof.
  intros H. pose proof (sigmoid_mul_denominator x). pose proof (exp_pos (- x)).
  apply (Rmult_le_reg_r (1 + exp (- x))); lra.
Qed.

Lemma sigmoid_lt (x c : R) : 1 < c * (1 + exp (- x)) -> sigmoid x < c.
Proof.
  intros H. pose proof (sigmoid_mul_denominator x). pose proof (exp_pos (- x)).
  apply (Rmult_lt_reg_r (1 + exp (- x))); lra.
Qed.

Lemma sigmoid_strict (x y : R) : x < y -> sigmoid x < sigmoid y.
Proof.
  intros H. unfold sigmoid.
  pose proof (exp_increasing (- y) (- x) ltac:(lra)). pose proof (exp_pos (- y)).
  unfold Rdiv. rewrite !Rmult_1_l. apply Rinv_lt_contravar; nra.
Qed.

Lemma sigmoid_0 : sigmoid 0 = / 2.
Proof. unfold sigmoid. rewrite Ropp_0, exp_0. field. Qed.

Lemma exp_inv_pair (x : R) : exp x * exp (- x) = 1.
Proof. rewrite <- exp_plus. replace (x + - x) with 0 by ring. apply exp_0. Qed.

Lemma exp_1_lower : 2.4 < exp 1.
Proof.
  replace 1 with (INR 4 * (1 / 4)) by (simpl; lra).
  rewrite exp_nat_mul.
  pose proof (exp_ineq1_le (1 / 4)).
  pose proof (pow_incr (1 + 1 / 4) (exp (1 / 4)) 4 ltac:(lra)).
  simpl in *. lra.
Qed.

Lemma sigmoid_1_ge : 0.6 <= sigmoid 1.
Proof.
  apply sigmoid_ge. pose proof exp_1_lower. pose proof (exp_inv_pair 1).
  pose proof (exp_pos (- 1)). nra.
Qed.

Lemma sigmoid_third_lt : sigmoid (1 / 3) < 0.6.
Proof.
  apply sigmoid_lt. pose proof (exp_ineq1 (- (1 / 3)) ltac:(lra)). lra.
Qed.

Lemma sigmoid_mthird_ge : 0.3 <= sigmoid (- (1 / 3)).
Proof.
  apply sigmoid_ge. rewrite Ropp_involutive.
  pose proof (exp_ineq1 (- (1 / 3)) ltac:(lra)). pose proof (exp_inv_pair (1 / 3)).
  pose proof (exp_pos (1 / 3)). nra.
Qed.

Lemma sigmoid_m1_lt : sigmoid (- 1) < 0.3.
Proof.
  apply sigmoid_lt. replace (- (- 1)) with 1 by lra. pose proof exp_1_lower. lra.
Qed.

Lemma lrinec_prob_score (r : Z * string * R) (crp wbc hb na creat glucose : Q) :
  r = calculate_lrinec crp wbc hb na creat glucose ->
  lrinec_prob r = sigmoid ((IZR (lrinec_score r) - 6.5) / 1.5).
Proof. intros ->. reflexivity. Qed.

Lemma lrinec_level_score (r : Z * string * R) (crp wbc hb na creat glucose : Q) :
  r = calculate_lrinec crp wbc hb na creat glucose ->
  lrinec_level r = if (8 <=? lrinec_score r)%Z then "Alto"%string
                   else if (6 <=? lrinec_score r)%Z then "Intermedio"%string
                   else "Bajo"%string.
Proof. intros ->. reflexivity. Qed.

(** The LRINEC probability lies in [(0, 1)] and exceeds one half exactly
    when the score is at least 7. *)
Theorem lrinec_prob_half : forall crp wbc hb na creat glucose : Q,
  let r := calculate_lrinec crp wbc hb na creat glucose in
  0 < lrinec_prob r < 1 /\ (/ 2 < lrinec_prob r <-> (7 <= lrinec_score r)%Z).
Proof.
  intros crp wbc hb na creat glucose r.
  rewrite (lrinec_prob_score r crp wbc hb na creat glucose eq_refl).
  split; [apply sigmoid_bounds|]. rewrite <- sigmoid_0. split.
  - intros H. destruct (Z_lt_le_dec (lrinec_score r) 7) as [Hs|Hs]; [|exact Hs].
    exfalso. assert (IZR (lrinec_score r) <= 6) by (apply IZR_le; lia).
    assert (sigmoid ((IZR (lrinec_score r) - 6.5) / 1.5) <= sigmoid 0)
      by (apply sigmoid_mono; lra).
    lra.
  - intros Hs. apply IZR_le in Hs. apply sigmoid_strict. lra.
Qed.

(** The LRINEC level always agrees with the tier [risk_label] gives the
    LRINEC probability: score >= 8 gives probability >= 0.6 ("Alto"), scores
    6 and 7 give a probability in [[0.3, 0.6)] ("Intermedio"), lower scores a
    probability below 0.3 ("Bajo"). *)
Theorem lrinec_level_matches_risk_label : forall crp wbc hb na creat glucose : Q,
  let r := calculate_lrinec crp wbc hb na creat glucose in
  fst (fst (risk_labelR (lrinec_prob r))) = lrinec_level r.
Proof.
  intros crp wbc hb na creat glucose r.
  rewrite (lrinec_prob_score r crp wbc hb na creat glucose eq_refl),
          (lrinec_level_score r crp wbc hb na creat glucose eq_refl).
  set (s := lrinec_score r).
  unfold risk_labelR.
  destruct (Z.leb_spec 8 s) as [H8|H8].
  - apply IZR_le in H8.
    assert (sigmoid 1 <= sigmoid ((IZR s - 6.5) / 1.5)) by (apply sigmoid_mono; lra).
    pose proof sigmoid_1_ge.
    destruct (Rle_dec 0.6 _); [reflexivity | lra].
  - destruct (Z.leb_spec 6 s) as [H6|H6].
    + assert (IZR s <= 7) by (apply IZR_le; lia). apply IZR_le in H6.
      assert (sigmoid ((IZR s - 6.5) / 1.5) <= sigmoid (1 / 3))
        by (apply sigmoid_mono; lra).
      assert (sigmoid (- (1 / 3)) <= sigmoid ((IZR s - 6.5) / 1.5))
        by (apply sigmoid_mono; lra).
      pose proof sigmoid_third_lt. pose proof sigmoid_mthird_ge.
      destruct (Rle_dec 0.6 _); [lra|].
      destruct (Rle_dec 0.3 _); [reflexivity | lra].
    + assert (IZR s <= 5) by (apply IZR_le; lia).
      assert (sigmoid ((IZR s - 6.5) / 1.5) <= sigmoid (- 1))
        by (apply sigmoid_mono; lra).
      pose proof sigmoid_m1_lt.
      destruct (Rle_dec 0.6 _); [lra|].
      destruct (Rle_dec 0.3 _); [lra | reflexivity].
Qed.

(** ** DEMO model: ceilings *)

Open Scope Q_scope.

Lemma normalize_demo_ceiling (v c : Q) : 0 < c -> c <= v -> normalize_demo v c == 1.
Proof.
  intros Hc Hv. unfold normalize_demo. qcases; [lra|].
  assert (1 <= v / c).
  { apply Qle_shift_div_l; [exact Hc | lra]. }
  unfold clamp, py_max, py_min. qcases; lra.
Qed.

Lemma normalize_demo_nonpos (v c : Q) : v <= 0 -> normalize_demo v c == 0.
Proof.
  intros Hv. unfold normalize_demo. qcases; [lra|].
  assert (v / c <= 0).
  { unfold Qdiv. assert (0 <= / c) by (apply Qinv_le_0_compat; lra). nra. }
  unfold clamp, py_max, py_min. qcases; lra.
Qed.

Lemma calculate_demo_Qeq_z (pcr wbc esr pcr' wbc' esr' : Q) :
  demo_z pcr wbc esr == demo_z pcr' wbc' esr' ->
  calculate_demo pcr wbc esr = calculate_demo pcr' wbc' esr'.
Proof.
  intros H. unfold calculate_demo. apply f_equal, Qeq_eqR. rewrite H. reflexivity.
Qed.

(** A DEMO lab above its ceiling (300, 40, 150) counts as the ceiling, and a
    lab at or below 0 counts as 0: beyond these bounds the value no longer
    changes the DEMO probability. *)
Theorem calculate_demo_ceilings : forall pcr wbc esr : Q,
  (300 <= pcr -> calculate_demo pcr wbc esr = calculate_demo 300 wbc esr) /\
  (40 <= wbc -> calculate_demo pcr wbc esr = calculate_demo pcr 40 esr) /\
  (150 <= esr -> calculate_demo pcr wbc esr = calculate_demo pcr wbc 150) /\
  (pcr <= 0 -> calculate_demo pcr wbc esr = calculate_demo 0 wbc esr) /\
  (wbc <= 0 -> calculate_demo pcr wbc esr = calculate_demo pcr 0 esr) /\
  (esr <= 0 -> calculate_demo pcr wbc esr = calculate_demo pcr wbc 0).
Proof.
  intros pcr wbc esr.
  repeat split; intros H; apply calculate_demo_Qeq_z; unfold demo_z.
  - rewrite (normalize_demo_ceiling pcr 300), (normalize_demo_ceiling 300 300)
      by (reflexivity || lra). reflexivity.
  - rewrite (normalize_demo_ceiling wbc 40), (normalize_demo_ceiling 40 40)
      by (reflexivity || lra). reflexivity.
  - rewrite (normalize_demo_ceiling esr 150), (normalize_demo_ceiling 150 150)
      by (reflexivity || lra). reflexivity.
  - rewrite (normalize_demo_nonpos pcr 300), (normalize_demo_nonpos 0 300)
      by (reflexivity || lra). reflexivity.
  - rewrite (normalize_demo_nonpos wbc 40), (normalize_demo_nonpos 0 40)
      by (reflexivity || lra). reflexivity.
  - rewrite (normalize_demo_nonpos esr 150), (normalize_demo_nonpos 0 150)
      by (reflexivity || lra). reflexivity.
Qed.

Lemma calculate_demo_ceilings_witness :
  calculate_demo 450 10 200 = calculate_demo 300 10 200 /\
  calculate_demo 100 10 200 = calculate_demo 100 10 150.
Proof.
  split.
  - apply (proj1 (calculate_demo_ceilings 450 10 200)). qnum.
  - apply (proj1 (proj2 (proj2 (calculate_demo_ceilings 100 10 200)))). qnum.
Defined.

(** ** index *)

Lemma py_min_lt (a b x : Q) : py_min a b < x <-> a < x \/ b < x.
Proof.
  unfold py_min. qcases; split; intros H;
    try (destruct H as [H|H]); first [lra | left; lra | right; lra | idtac].
Qed.

Lemma py_min_neg (a b : Q) : Qltb (py_min a b) 0 = true <-> a < 0 \/ b < 0.
Proof.
  rewrite <- py_min_lt. split; intros H.
  - destruct (Qltb_spec (py_min a b) 0); [exact q | discriminate].
  - destruct (Qltb_spec (py_min a b) 0); [reflexivity | contradiction].
Qed.

Open Scope R_scope.

Lemma clampR_unit (v : R) : 0 <= clampR v 0 1 <= 1.
Proof.
  unfold clampR, py_maxR, py_minR.
  destruct (Rlt_dec 1 v); destruct (Rlt_dec 0 _); lra.
Qed.

Lemma combine_riskR_unit (base : R) (tf : option R) (ai : bool) :
  0 <= base <= 1 -> 0 <= combine_riskR base tf ai <= 1.
Proof.
  intros H. unfold combine_riskR.
  destruct tf as [t|]; [|exact H].
  destruct ai; [apply clampR_unit|].
  destruct (Req_dec_T t 0); [exact H | apply clampR_unit].
Qed.

Lemma py_floor_spec (y : R) : IZR (py_floor y) <= y < IZR (py_floor y) + 1.
Proof.
  unfold py_floor. rewrite minus_IZR. destruct (archimed y). lra.
Qed.

Lemma round_half_even_close (y : R) :
  Rabs (IZR (round_half_even y) - y) <= / 2.
Proof.
  unfold round_half_even. pose proof (py_floor_spec y) as [H1 H2].
  set (f := py_floor y) in *.
  destruct (Rlt_dec (y - IZR f) 0.5).
  - apply Rabs_le. lra.
  - destruct (Rlt_dec 0.5 (y - IZR f)).
    + rewrite plus_IZR. apply Rabs_le. lra.
    + destruct (Z.even f); [|rewrite plus_IZR]; apply Rabs_le; lra.
Qed.

Lemma Rabs_le_between (x a : R) : Rabs x <= a -> - a <= x <= a.
Proof. unfold Rabs. destruct (Rcase_abs x); lra. Qed.

Lemma round_half_even_range (y : R) :
  0 <= y <= 1000 -> (0 <= round_half_even y <= 1000)%Z.
Proof.
  intros Hy. pose proof (round_half_even_close y) as Hc.
  apply Rabs_le_between in Hc.
  assert (Hlo : (-1 < round_half_even y)%Z) by (apply lt_IZR; lra).
  assert (Hhi : (round_half_even y < 1001)%Z) by (apply lt_IZR; lra).
  lia.
Qed.

(** [round(x, 1)] stays within [0.05] of [x] and keeps [[0, 100]]. *)
Lemma py_round1_percent (x : R) :
  0 <= x <= 100 ->
  0 <= py_round1 x <= 100 /\ Rabs (py_round1 x - x) <= 0.05.
Proof.
  intros Hx. unfold py_round1.
  pose proof (round_half_even_range (x * 10) ltac:(lra)) as [H0 H1].
  apply IZR_le in H0. apply IZR_le in H1.
  pose proof (round_half_even_close (x * 10)) as Hc. apply Rabs_le_between in Hc.
  split; [split|apply Rabs_le]; unfold Rdiv; lra.
Qed.

Lemma clinical_step_unit (f : post_form) (base : R) (lr : option (Z * string)) :
  clinical_step f = Some (base, lr) -> 0 <= base <= 1.
Proof.
  unfold clinical_step. intros H.
  destruct (String.eqb (form_model f) "demo"%string).
  - destruct (form_float f "pcr"%string), (form_float f "wbc"), (form_float f "esr");
      try discriminate.
    destruct (Qltb _ 0); [discriminate|]. injection H as <- _.
    pose proof (sigmoid_bounds (Q2R (3 * demo_z q q0 q1 - 1.5))). unfold calculate_demo. lra.
  - destruct (form_float f "crp"%string), (form_float f "wbc"), (form_float f "hb"),
      (form_float f "na"), (form_float f "creat"), (form_float f "glucose");
      try discriminate.
    destruct (Qltb _ 0); [discriminate|]. injection H as <- _.
    match goal with |- 0 <= sigmoid ?x <= 1 => pose proof (sigmoid_bounds x) end.
    lra.
Qed.

Open Scope Q_scope.

(** From [fields_valid f ks], the value of field [k] of [ks] and its sign. *)
Ltac use_field Hv k :=
  let v := fresh "v" in let Hk := fresh "Hk" in let Hp := fresh "Hp" in
  destruct (Hv k ltac:(simpl; tauto)) as [v [Hk Hp]].

Ltac missing_field Hv :=
  split; [intros _ Hv | intros _; reflexivity];
  first [ use_field Hv "pcr"%string; congruence | use_field Hv "wbc"%string; congruence
        | use_field Hv "esr"%string; congruence | use_field Hv "crp"%string; congruence
        | use_field Hv "hb"%string; congruence | use_field Hv "na"%string; congruence
        | use_field Hv "creat"%string; congruence | use_field Hv "glucose"%string; congruence ].

Lemma clinical_step_None_iff (f : post_form) :
  clinical_step f = None <-> ~ fields_valid f (model_fields f).
Proof.
  unfold clinical_step, model_fields, fields_valid.
  destruct (String.eqb (form_model f) "demo"%string).
  - destruct (form_float f "pcr"%string) as [a|] eqn:Ea;
    destruct (form_float f "wbc"%string) as [b|] eqn:Eb;
    destruct (form_float f "esr"%string) as [c|] eqn:Ec;
    try (missing_field Hv; fail).
    destruct (Qltb_spec (py_min (py_min a b) c) 0) as [Hm|Hm].
    + split; [intros _ Hv | intros _; reflexivity].
      use_field Hv "pcr"%string; use_field Hv "wbc"%string; use_field Hv "esr"%string.
      rewrite !py_min_lt in Hm.
      assert (a = v /\ b = v0 /\ c = v1) as (-> & -> & ->) by (repeat split; congruence).
      destruct Hm as [[Hm|Hm]|Hm]; lra.
    + rewrite !py_min_lt in Hm.
      assert (0 <= a /\ 0 <= b /\ 0 <= c) as (Ha & Hb & Hc)
        by (repeat split; apply Qnot_lt_le; tauto).
      split; [discriminate|]. intros Hn. exfalso. apply Hn.
      intros k Hk. simpl in Hk.
      destruct Hk as [<-|[<-|[<-|[]]]]; eexists; split; eauto.
  - destruct (form_float f "crp"%string) as [a|] eqn:Ea;
    destruct (form_float f "wbc"%string) as [b|] eqn:Eb;
    destruct (form_float f "hb"%string) as [c|] eqn:Ec;
    destruct (form_float f "na"%string) as [d|] eqn:Ed;
    destruct (form_float f "creat"%string) as [e|] eqn:Ee;
    destruct (form_float f "glucose"%string) as [g|] eqn:Eg;
    try (missing_field Hv; fail).
    destruct (Qltb_spec (py_min (py_min (py_min (py_min (py_min a b) c) d) e) g) 0)
      as [Hm|Hm].
    + split; [intros _ Hv | intros _; reflexivity].
      use_field Hv "crp"%string; use_field Hv "wbc"%string; use_field Hv "hb"%string;
      use_field Hv "na"%string; use_field Hv "creat"%string; use_field Hv "glucose"%string.
      rewrite !py_min_lt in Hm.
      assert (a = v /\ b = v0 /\ c = v1 /\ d = v2 /\ e = v3 /\ g = v4)
        as (-> & -> & -> & -> & -> & ->) by (repeat split; congruence).
      destruct Hm as [[[[[Hm|Hm]|Hm]|Hm]|Hm]|Hm]; lra.
    + rewrite !py_min_lt in Hm.
      assert (0 <= a /\ 0 <= b /\ 0 <= c /\ 0 <= d /\ 0 <= e /\ 0 <= g)
        as (Ha & Hb & Hc & Hd & He & Hg)
        by (repeat split; apply Qnot_lt_le; tauto).
      split; [discriminate|]. intros Hn. exfalso. apply Hn.
      intros k Hk. simpl in Hk.
      destruct Hk as [<-|[<-|[<-|[<-|[<-|[<-|[]]]]]]]; eexists; split; eauto.
Qed.

Lemma clinical_step_lrinec_none (f : post_form) (base : R) (lr : option (Z * string)) :
  clinical_step f = Some (base, lr) -> (lr = None <-> form_model f = "demo"%string).
Proof.
  unfold clinical_step. intros H.
  destruct (String.eqb_spec (form_model f) "demo"%string) as [Hd|Hd].
  - destruct (form_float f "pcr"%string), (form_float f "wbc"%string),
      (form_float f "esr"%string); try discriminate.
    destruct (Qltb _ 0); [discriminate|]. injection H as _ <-. tauto.
  - destruct (form_float f "crp"%string), (form_float f "wbc"%string),
      (form_float f "hb"%string), (form_float f "na"%string),
      (form_float f "creat"%string), (form_float f "glucose"%string);
      try discriminate.
    destruct (Qltb _ 0); [discriminate|]. injection H as _ <-.
    split; [discriminate | tauto].
Qed.

Close Scope Q_scope.
Open Scope R_scope.

(** ** [index] *)

(** [index] redirects with the flash message "Valores inválidos o
    negativos." exactly when one of the lab fields of the chosen model is
    missing, not a number, or negative; otherwise it renders a result. *)
Theorem index_post_redirect_iff (api_key : option text) (openai_available : bool)
    (ai_factor : text -> option Q) (f : post_form) :
  index_post api_key openai_available ai_factor f = Redirect invalid_values_msg <->
  ~ fields_valid f (model_fields f).
Proof.
  rewrite <- clinical_step_None_iff. unfold index_post.
  destruct (clinical_step f) as [[base lr]|]; [|tauto].
  destruct (risk_labelR _) as [[? ?] ?]. split; discriminate.
Qed.

(** Every POST either redirects with the flash message, or renders a
    result whose probability lies in [[0, 1]], whose percentage lies in
    [[0, 100]] and is within 0.05 of 100 times the probability, whose level
    and colours are [risk_label] of the probability, for the model of the
    form, with the AI flag [ai_active], and with a LRINEC score shown
    exactly when the model is not "demo". *)
Theorem index_post_outcome (api_key : option text) (openai_available : bool)
    (ai_factor : text -> option Q) (f : post_form) :
  index_post api_key openai_available ai_factor f = Redirect invalid_values_msg \/
  exists res sc lv,
    index_post api_key openai_available ai_factor f =
      Render (Some res) (form_model f) sc lv (ai_active api_key openai_available) /\
    0 <= res_prob res <= 1 /\
    0 <= res_percent res <= 100 /\
    Rabs (res_percent res - res_prob res * 100) <= 0.05 /\
    risk_labelR (res_prob res) = (res_level res, res_color_class res, res_color_hex res) /\
    (sc = None <-> form_model f = "demo"%string).
Proof.
  unfold index_post.
  destruct (clinical_step f) as [[base lr]|] eqn:E; [right | left; reflexivity].
  pose proof (clinical_step_unit f base lr E) as Hb.
  pose proof (clinical_step_lrinec_none f base lr E) as Hl.
  set (p := combine_riskR base _ _).
  assert (Hp : 0 <= p <= 1) by (apply combine_riskR_unit; exact Hb).
  destruct (risk_labelR p) as [[lv cc] hex] eqn:El.
  eexists _, _, _. split; [reflexivity|]. simpl.
  destruct (py_round1_percent (p * 100)) as [Hr Hc]; [lra|].
  repeat split; try lra; try exact Hc; try exact El.
  - intros Hs. apply Hl. destruct lr; [discriminate | reflexivity].
  - intros Hs. apply Hl in Hs. subst lr. reflexivity.
Qed.

(** When the AI is not active, [index] never uses the AI factor: the page
    is the same whatever the service would answer. *)
Theorem index_post_ai_unused (api_key : option text) (openai_available : bool)
    (ai1 ai2 : text -> option Q) (f : post_form) :
  ai_active api_key openai_available = false ->
  index_post api_key openai_available ai1 f = index_post api_key openai_available ai2 f.
Proof.
  intros H. unfold index_post. rewrite H. reflexivity.
Qed.

(** When the AI is active but [ai_text_factor] gives no value (the call or
    the parse failed), the probability shown is the model's own probability,
    unchanged. *)
Theorem index_post_ai_failure (api_key : option text) (openai_available : bool)
    (ai_factor : text -> option Q) (f : post_form) (base : R) (lr : option (Z * string)) :
  ai_active api_key openai_available = true ->
  ai_factor (form_notes f) = None ->
  clinical_step f = Some (base, lr) ->
  exists res, index_post api_key openai_available ai_factor f =
    Render (Some res) (form_model f) (option_map fst lr) (option_map snd lr) true /\
    res_prob res = base.
Proof.
  intros Ha Hn Hc. unfold index_post. rewrite Hc, Ha, Hn. simpl.
  destruct (risk_labelR base) as [[? ?] ?].
  eexists. split; reflexivity.
Qed.

(** A "demo" form with every lab value 1 and notes mentioning gas. *)
Definition demo_form_ones : post_form :=
  {| form_model := "demo"; form_notes := cps "gas"; form_float := fun _ => Some 1%Q |}.

Lemma index_post_ai_unused_witness :
  ai_active None true = false /\
  index_post None true (fun _ => None) demo_form_ones =
  index_post None true (fun _ => Some 1%Q) demo_form_ones.
Proof.
  split; [reflexivity|].
  apply (index_post_ai_unused None true (fun _ => None) (fun _ => Some 1%Q) demo_form_ones).
  reflexivity.
Defined.

Lemma index_post_ai_failure_witness :
  exists res, index_post (Some (cps "sk")) true (fun _ => None) demo_form_ones =
    Render (Some res) "demo"%string None None true /\
    res_prob res = calculate_demo 1 1 1.
Proof.
  apply (index_post_ai_failure (Some (cps "sk")) true (fun _ => None) demo_form_ones
           (calculate_demo 1 1 1) None); reflexivity.
Defined.
